(** * Fresh Juice Store: the in-memory store of [server.js] and its two
    front-ends (GraphQL resolvers and REST handlers), embedded as pure
    functions over an explicit store. *)

From Stdlib Require Import Floats Ascii String DecimalString DecimalNat Decimal Bool.
From stdpp Require Import base list.

Set Warnings "-inexact-float,-register-all".

Open Scope string_scope.

(** ** JavaScript values

    Request bodies and stored fields are untyped in the source.  A JSON
    value, or [undefined] for a key that is not there. *)

Inductive value : Type :=
| VUndefined
| VNull
| VBool (b : bool)
| VNum (n : float)
| VStr (s : string)
| VArr (elems : list value)
| VObj (props : list (string * value)).

(** [ToBoolean]: what [!v], [v || w] and [v ? a : b] test. *)
Definition truthy (v : value) : bool :=
  match v with
  | VUndefined | VNull => false
  | VBool b => b
  | VNum n => negb (PrimFloat.eqb n 0 || PrimFloat.is_nan n)
  | VStr s => negb (String.eqb s "")
  | VArr _ | VObj _ => true
  end.

(** [a || b] on values. *)
Definition js_or (a b : value) : value := if truthy a then a else b.

(** [v !== undefined]. *)
Definition is_defined (v : value) : bool :=
  match v with VUndefined => false | _ => true end.

(** [x === s] where [x] is a string: only a string with the same text. *)
Definition strict_eq_str (x : string) (v : value) : bool :=
  match v with VStr s => String.eqb x s | _ => false end.

(** [(n).toString()] for an array length plus one: its decimal digits. *)
Definition toString (n : nat) : string :=
  NilEmpty.string_of_uint (Nat.to_uint n).


(** ** Strings

    A string is its sequence of code units; the model keeps the units
    below 256, where [toLowerCase] moves exactly A-Z and the Latin-1
    capitals (U+00C0 to U+00DE, the sign U+00D7 apart) by 32. *)

Definition lower_char (c : ascii) : ascii :=
  let n := nat_of_ascii c in
  if (Nat.leb 65 n && Nat.leb n 90)
     || (Nat.leb 192 n && Nat.leb n 222 && negb (Nat.eqb n 215))
  then ascii_of_nat (n + 32) else c.

Fixpoint toLowerCase (s : string) : string :=
  match s with
  | EmptyString => EmptyString
  | String c s' => String (lower_char c) (toLowerCase s')
  end.

(** [s.includes(q)]: [q] starts at some position of [s]. *)
Fixpoint includes (s q : string) : bool :=
  String.prefix q s
  || match s with
     | EmptyString => false
     | String _ s' => includes s' q
     end.

(** ** Results of a resolver: a value or a thrown exception *)

Inductive exn : Type :=
| Error (message : string)
| TypeError.

Inductive result (A : Type) : Type :=
| Return (a : A)
| Throw (e : exn).
Arguments Return {A} a.
Arguments Throw {A} e.

#[global] Instance result_bind : MBind result := fun A B k r =>
  match r with
  | Return a => k a
  | Throw e => Throw e
  end.

(** [l.filter(p)] with a callback that may throw: the first exception, in
    array order, leaves the loop. *)
Fixpoint filter_result {A} (p : A -> result bool) (l : list A)
  : result (list A) :=
  match l with
  | [] => Return []
  | x :: l' =>
      b ← p x;
      r ← filter_result p l';
      Return (if (b : bool) then x :: r else r)
  end.

(** [l.findIndex(p)]; [None] stands for -1. *)
Fixpoint findIndex {A} (p : A -> bool) (l : list A) : option nat :=
  match l with
  | [] => None
  | x :: l' => if p x then Some 0 else S <$> findIndex p l'
  end.

(** ** Records of the store *)

Record Juice : Type := mkJuice {
  j_id : string;
  j_name : value;
  j_description : value;
  j_price : float;
  j_category : value;
  j_inStock : value;
  j_imageUrl : value
}.

(** [createdAt] is a [Date] object in the seed orders and the text of
    [toISOString()] in the created ones. *)
Inductive timestamp : Type :=
| DateObj (iso : string)
| IsoString (iso : string).

Record Order : Type := mkOrder {
  o_id : string;
  o_customerName : value;
  o_items : list value;
  o_total : float;
  o_status : string;
  o_createdAt : timestamp
}.

(** The two module-level arrays. *)
Record Store : Type := mkStore {
  juices : list Juice;
  orders : list Order
}.

Definition seed_juices : list Juice :=
  [ mkJuice "1" (VStr "Orange Juice") (VStr "Freshly squeezed oranges")
      4.99 (VStr "Fruit") (VBool true) (VStr "./images/first.jpg");
    mkJuice "2" (VStr "Green Detox") (VStr "Spinach, kale, and apple blend")
      5.99 (VStr "Vegetable") (VBool true) (VStr "./images/second.jpg");
    mkJuice "3" (VStr "Berry Blast") (VStr "Mixed berries with yogurt")
      6.99 (VStr "Smoothie") (VBool true) (VStr "./images/third.jpg");
    mkJuice "4" (VStr "Carrot Boost") (VStr "Fresh carrots with ginger")
      4.49 (VStr "Vegetable") (VBool false) (VStr "./images/look.jpg");
    mkJuice "5" (VStr "Pineapple Paradise")
      (VStr "Tropical pineapple with coconut")
      7.99 (VStr "Fruit") (VBool true) (VStr "./images/first.jpg") ].

Definition seed_orders : list Order :=
  [ mkOrder "1" (VStr "Pavan") [VStr "1"; VStr "2"] 10.98 "completed"
      (DateObj "2024-01-15T00:00:00.000Z");
    mkOrder "2" (VStr "Sunny") [VStr "3"] 6.99 "pending"
      (DateObj "2024-01-16T00:00:00.000Z") ].

Definition seed : Store := mkStore seed_juices seed_orders.

(** ** GraphQL inputs

    An optional field of an input object, after the schema's coercion: the
    key is left out, given as [null], or given with a value. *)

Inductive arg (A : Type) : Type :=
| Absent
| Null
| Given (a : A).
Arguments Absent {A}.
Arguments Null {A}.
Arguments Given {A} a.

(** [{ ...before, key: a }] read back at [key], where the key is written
    only when the input has it: what the spread [...input] does to one
    optional field. *)
Definition spread {A} (inj : A -> value) (a : arg A) (before : value) : value :=
  match a with
  | Absent => before
  | Null => VNull
  | Given x => inj x
  end.

(** [input JuiceInput]: [name] and [price] are non-null. *)
Record JuiceInput : Type := mkJuiceInput {
  in_name : string;
  in_description : arg string;
  in_price : float;
  in_category : arg string;
  in_inStock : arg bool;
  in_imageUrl : arg string
}.

(** [input OrderInput]. *)
Record OrderInput : Type := mkOrderInput {
  in_customerName : string;
  in_items : list string
}.

(** The reduction of [createOrder] and of [POST /api/orders]:
    [items.reduce((sum, itemId) => sum + (juice ? juice.price : 0), 0)]
    with [juice = juices.find(j => j.id === itemId)]. *)
Definition order_total (js : list Juice) (items : list value) : float :=
  fold_left
    (fun sum itemId =>
       let juice := List.find (fun j => strict_eq_str (j_id j) itemId) js in
       (sum + match juice with Some j => j_price j | None => 0 end)%float)
    items 0%float.

Module Query.

Definition juice (id : string) (s : Store) : option Juice :=
  List.find (fun j => String.eqb (j_id j) id) (juices s).

Definition juicesByCategory (category : string) (s : Store) : list Juice :=
  List.filter (fun j => strict_eq_str category (j_category j)) (juices s).

Definition order (id : string) (s : Store) : option Order :=
  List.find (fun o => String.eqb (o_id o) id) (orders s).

(** [field.toLowerCase().includes(q)]: only a string has the method. *)
Definition lower_includes (field : value) (q : string) : result bool :=
  match field with
  | VStr text => Return (includes (toLowerCase text) q)
  | _ => Throw TypeError
  end.

(** The callback of [searchJuices]; [||] stops at the first [true]. *)
Definition search_callback (lowercaseQuery : string) (j : Juice)
  : result bool :=
  in_name ← lower_includes (j_name j) lowercaseQuery;
  if (in_name : bool) then Return true else
  in_description ← lower_includes (j_description j) lowercaseQuery;
  if (in_description : bool) then Return true else
  lower_includes (j_category j) lowercaseQuery.

Definition searchJuices (query : string) (s : Store) : result (list Juice) :=
  let lowercaseQuery := toLowerCase query in
  filter_result (search_callback lowercaseQuery) (juices s).

Definition juices (s : Store) : list Juice := juices s.
Definition orders (s : Store) : list Order := orders s.

End Query.

Module OrderFields.

(** [Boolean] on the result of [find]: an object or [undefined]. *)
Definition Boolean (found : option Juice) : bool :=
  match found with Some _ => true | None => false end.

(** The objects of an array that [filter(Boolean)] has left. *)
Definition objects (l : list (option Juice)) : list Juice :=
  flat_map (fun found => match found with Some j => [j] | None => [] end) l.

(** [Order.juices]. *)
Definition juices (parent : Order) (s : Store) : list Juice :=
  objects
    (List.filter Boolean
       (map (fun itemId =>
               List.find (fun j => strict_eq_str (j_id j) itemId) (juices s))
            (o_items parent))).

End OrderFields.

Module Mutation.

Definition createJuice (input : JuiceInput) (s : Store) : Juice * Store :=
  let given_inStock := spread VBool (in_inStock input) VUndefined in
  let newJuice :=
    {| j_id := toString (length (juices s) + 1);
       j_name := VStr (in_name input);
       j_description := spread VStr (in_description input) VUndefined;
       j_price := in_price input;
       j_category := spread VStr (in_category input) VUndefined;
       j_inStock :=
         if is_defined given_inStock then given_inStock else VBool true;
       j_imageUrl := spread VStr (in_imageUrl input) VUndefined |} in
  (newJuice, mkStore (juices s ++ [newJuice]) (orders s)).

(** [{ ...juices[juiceIndex], ...input }]. *)
Definition merge (old : Juice) (input : JuiceInput) : Juice :=
  {| j_id := j_id old;
     j_name := VStr (in_name input);
     j_description := spread VStr (in_description input) (j_description old);
     j_price := in_price input;
     j_category := spread VStr (in_category input) (j_category old);
     j_inStock := spread VBool (in_inStock input) (j_inStock old);
     j_imageUrl := spread VStr (in_imageUrl input) (j_imageUrl old) |}.

Definition updateJuice (id : string) (input : JuiceInput) (s : Store)
  : result Juice * Store :=
  match findIndex (fun j => String.eqb (j_id j) id) (juices s) with
  | None => (Throw (Error "Juice not found"), s)
  | Some juiceIndex =>
      match juices s !! juiceIndex with
      | None => (Throw TypeError, s) (* not taken: the index is in range *)
      | Some old =>
          let updated := merge old input in
          (Return updated,
           mkStore (<[juiceIndex := updated]> (juices s)) (orders s))
      end
  end.

Definition deleteJuice (id : string) (s : Store) : result bool * Store :=
  match findIndex (fun j => String.eqb (j_id j) id) (juices s) with
  | None => (Throw (Error "Juice not found"), s)
  | Some juiceIndex =>
      (Return true, mkStore (delete juiceIndex (juices s)) (orders s))
  end.

(** [now] is the text of [new Date().toISOString()] at the call. *)
Definition createOrder (now : string) (input : OrderInput) (s : Store)
  : Order * Store :=
  let items := map VStr (in_items input) in
  let total := order_total (juices s) items in
  let newOrder :=
    {| o_id := toString (length (orders s) + 1);
       o_customerName := VStr (in_customerName input);
       o_items := items;
       o_total := total;
       o_status := "pending";
       o_createdAt := IsoString now |} in
  (newOrder, mkStore (juices s) (orders s ++ [newOrder])).

(** [order.status = status] on the found order. *)
Definition set_status (status : string) (o : Order) : Order :=
  {| o_id := o_id o;
     o_customerName := o_customerName o;
     o_items := o_items o;
     o_total := o_total o;
     o_status := status;
     o_createdAt := o_createdAt o |}.

(** The order that [find] returns is the array's own element: the
    assignment to its [status] is seen at its index. *)
Definition updateOrderStatus (id status : string) (s : Store)
  : result Order * Store :=
  let is_it := fun o => String.eqb (o_id o) id in
  match List.find is_it (orders s), findIndex is_it (orders s) with
  | Some order, Some at_index =>
      let order' := set_status status order in
      (Return order',
       mkStore (juices s) (<[at_index := order']> (orders s)))
  | _, _ => (Throw (Error "Order not found"), s)
  end.

End Mutation.

(** ** REST handlers *)

(** What [res.json(...)] is given. *)
Inductive payload : Type :=
| Message (message : string)
| OneJuice (j : Juice)
| AllJuices (l : list Juice)
| OneOrder (o : Order)
| AllOrders (l : list Order).

(** [res.status(code).json(body)]; a bare [res.json(body)] sends 200. *)
Record response : Type := mkResponse {
  status : nat;
  json : payload
}.

(** The keys that [POST] and [PUT /api/juices] take out of [req.body]. *)
Record JuiceBody : Type := mkJuiceBody {
  b_name : value;
  b_description : value;
  b_price : value;
  b_category : value;
  b_inStock : value;
  b_imageUrl : value
}.

(** The keys that [POST /api/orders] takes out of [req.body]. *)
Record OrderBody : Type := mkOrderBody {
  b_customerName : value;
  b_items : value
}.

(** [Array.isArray(v)]. *)
Definition isArray (v : value) : bool :=
  match v with VArr _ => true | _ => false end.

(** The elements of a value that [Array.isArray] has accepted. *)
Definition elements (v : value) : list value :=
  match v with VArr elems => elems | _ => [] end.

Module Rest.
Section Handlers.

(** [parseFloat] of the runtime on an argument that is not a number: it
    reads the longest decimal prefix of the argument's text. *)
Variable parseFloat_text : value -> float.

(** [parseFloat(v)].  A number goes through its own text and comes back
    as it was, the sign of zero apart. *)
Definition parseFloat (v : value) : float :=
  match v with
  | VNum n => if PrimFloat.eqb n 0 then 0%float else n
  | _ => parseFloat_text v
  end.

Definition get_api_juices (s : Store) : response :=
  mkResponse 200 (AllJuices (juices s)).

Definition get_api_juices_id (id : string) (s : Store) : response :=
  match List.find (fun j => String.eqb (j_id j) id) (juices s) with
  | None => mkResponse 404 (Message "Juice not found")
  | Some juice => mkResponse 200 (OneJuice juice)
  end.

Definition post_api_juices (body : JuiceBody) (s : Store)
  : response * Store :=
  if negb (truthy (b_name body)) || negb (truthy (b_price body))
  then (mkResponse 400 (Message "Name and price are required"), s)
  else
    let newJuice :=
      {| j_id := toString (length (juices s) + 1);
         j_name := b_name body;
         j_description := js_or (b_description body) (VStr "");
         j_price := parseFloat (b_price body);
         j_category := js_or (b_category body) (VStr "Fruit");
         j_inStock :=
           if is_defined (b_inStock body) then b_inStock body
           else VBool true;
         j_imageUrl := js_or (b_imageUrl body) (VStr "./images/first.jpg") |}
    in
    (mkResponse 201 (OneJuice newJuice),
     mkStore (juices s ++ [newJuice]) (orders s)).

(** The six assignments of [PUT /api/juices/:id]. *)
Definition assign (juice : Juice) (body : JuiceBody) : Juice :=
  {| j_id := j_id juice;
     j_name := js_or (b_name body) (j_name juice);
     j_description := js_or (b_description body) (j_description juice);
     j_price :=
       if truthy (b_price body) then parseFloat (b_price body)
       else j_price juice;
     j_category := js_or (b_category body) (j_category juice);
     j_inStock :=
       if is_defined (b_inStock body) then b_inStock body
       else j_inStock juice;
     j_imageUrl := js_or (b_imageUrl body) (j_imageUrl juice) |}.

(** The juice that [find] returns is the array's own element: the
    assignments are seen at its index. *)
Definition put_api_juices_id (id : string) (body : JuiceBody) (s : Store)
  : response * Store :=
  let is_it := fun j => String.eqb (j_id j) id in
  match List.find is_it (juices s), findIndex is_it (juices s) with
  | Some juice, Some at_index =>
      let juice' := assign juice body in
      (mkResponse 200 (OneJuice juice'),
       mkStore (<[at_index := juice']> (juices s)) (orders s))
  | _, _ => (mkResponse 404 (Message "Juice not found"), s)
  end.

Definition delete_api_juices_id (id : string) (s : Store)
  : response * Store :=
  match findIndex (fun j => String.eqb (j_id j) id) (juices s) with
  | None => (mkResponse 404 (Message "Juice not found"), s)
  | Some juiceIndex =>
      (mkResponse 200 (Message "Juice deleted successfully"),
       mkStore (delete juiceIndex (juices s)) (orders s))
  end.

Definition get_api_orders (s : Store) : response :=
  mkResponse 200 (AllOrders (orders s)).

Definition post_api_orders (now : string) (body : OrderBody) (s : Store)
  : response * Store :=
  if negb (truthy (b_customerName body))
     || negb (truthy (b_items body))
     || negb (isArray (b_items body))
  then (mkResponse 400
          (Message "Customer name and items array are required"), s)
  else
    let items := elements (b_items body) in
    let total := order_total (juices s) items in
    let newOrder :=
      {| o_id := toString (length (orders s) + 1);
         o_customerName := b_customerName body;
         o_items := items;
         o_total := total;
         o_status := "pending";
         o_createdAt := IsoString now |} in
    (mkResponse 201 (OneOrder newOrder),
     mkStore (juices s) (orders s ++ [newOrder])).

End Handlers.
End Rest.

(** ** Specification-side notions *)

(** A juice with the given id is in the array. *)
Definition present (id : string) (js : list Juice) : Prop :=
  ∃ j, j ∈ js ∧ j_id j = id.

(** An order with the given id is in the array. *)
Definition order_present (id : string) (os : list Order) : Prop :=
  ∃ o, o ∈ os ∧ o_id o = id.


(** [getJuice]: the first juice stored under an item's id, if any. *)
Definition getJuice (itemId : value) (js : list Juice) : option Juice :=
  List.find (fun j => strict_eq_str (j_id j) itemId) js.

(** What one item adds to a total: the price of the juice currently
    stored under its id, and 0 when the id resolves to none. *)
Definition item_price (js : list Juice) (itemId : value) : float :=
  match getJuice itemId js with
  | Some j => j_price j
  | None => 0%float
  end.

(** The sum of a sequence of prices, taken from 0 in sequence order. *)
Definition float_sum (prices : list float) : float :=
  fold_left PrimFloat.add prices 0%float.

(** [resolveOrderJuices] in the spec's words: each item goes through
    [getJuice], an unresolved one is dropped, the others stay in item
    order. *)
Fixpoint resolveOrderJuices_spec (js : list Juice) (items : list value)
  : list Juice :=
  match items with
  | [] => []
  | itemId :: rest =>
      match getJuice itemId js with
      | Some j => j :: resolveOrderJuices_spec js rest
      | None => resolveOrderJuices_spec js rest
      end
  end.








(** The ids of a store that has only grown: "1", "2", ... in order. *)
Definition sequential (js : list Juice) : Prop :=
  map j_id js = map toString (seq 1 (length js)).

(** ** Requests in sequence

    Every resolver and handler runs to its end before the next request is
    taken.  The requests that can write to the store; queries and [GET]
    routes leave it as it is. *)

Inductive request : Type :=
| GqlCreateJuice (input : JuiceInput)
| GqlUpdateJuice (id : string) (input : JuiceInput)
| GqlDeleteJuice (id : string)
| GqlCreateOrder (now : string) (input : OrderInput)
| GqlUpdateOrderStatus (id status : string)
| PostJuice (body : JuiceBody)
| PutJuice (id : string) (body : JuiceBody)
| DeleteJuice (id : string)
| PostOrder (now : string) (body : OrderBody).

(** The store that a request leaves. *)
Definition handle (parseFloat_text : value -> float) (r : request) (s : Store)
  : Store :=
  match r with
  | GqlCreateJuice input => (Mutation.createJuice input s).2
  | GqlUpdateJuice id input => (Mutation.updateJuice id input s).2
  | GqlDeleteJuice id => (Mutation.deleteJuice id s).2
  | GqlCreateOrder now input => (Mutation.createOrder now input s).2
  | GqlUpdateOrderStatus id status =>
      (Mutation.updateOrderStatus id status s).2
  | PostJuice body => (Rest.post_api_juices parseFloat_text body s).2
  | PutJuice id body => (Rest.put_api_juices_id parseFloat_text id body s).2
  | DeleteJuice id => (Rest.delete_api_juices_id id s).2
  | PostOrder now body => (Rest.post_api_orders now body s).2
  end.

Definition run (parseFloat_text : value -> float) (rs : list request)
    (s : Store) : Store :=
  fold_left (fun st r => handle parseFloat_text r st) rs s.

(** The two requests that remove a juice. *)
Definition deletes (r : request) : bool :=
  match r with
  | GqlDeleteJuice _ | DeleteJuice _ => true
  | _ => false
  end.

(** The requests on orders; the others are on juices. *)
Definition on_orders (r : request) : bool :=
  match r with
  | GqlCreateOrder _ _ | GqlUpdateOrderStatus _ _ | PostOrder _ _ => true
  | _ => false
  end.

(** The ids of the orders are "1", "2", ... in order. *)
Definition order_sequential (os : list Order) : Prop :=
  map o_id os = map toString (seq 1 (length os)).

(** What no request writes to in an order: everything but its status. *)
Definition frozen (o : Order)
  : string * value * list value * float * timestamp :=
  (o_id o, o_customerName o, o_items o, o_total o, o_createdAt o).

(** [typeof v === 'string']. *)
Definition is_string (v : value) : bool :=
  match v with VStr _ => true | _ => false end.

(** * Properties *)

Ltac distinct_strings :=
  simpl;
  repeat (apply NoDup_cons_2;
          [rewrite ?elem_of_cons, elem_of_nil; intuition discriminate|]);
  apply NoDup_nil_2.

(** ** Arrays: [find] and [findIndex] *)

Section Arrays.
Context {A : Type} (p : A -> bool).

Lemma findIndex_Some (l : list A) (i : nat) :
  findIndex p l = Some i →
  ∃ x, l !! i = Some x ∧ p x = true ∧ List.find p l = Some x
       ∧ ∀ k y, k < i → l !! k = Some y → p y = false.
Proof.
  revert i. induction l as [|a l IH]; intros i; simpl; [done|].
  destruct (p a) eqn:Hp.
  - intros [= <-]. exists a. repeat split; auto. intros k y Hk. lia.
  - destruct (findIndex p l) as [i'|] eqn:Hf; simpl; [|done].
    intros [= <-]. destruct (IH i' eq_refl) as (x & Hx & Hpx & Hfind & Hfirst).
    exists x. repeat split; auto.
    intros [|k] y Hk; simpl.
    + by intros [= <-].
    + apply Hfirst. lia.
Qed.

Lemma findIndex_None (l : list A) :
  findIndex p l = None ↔ ∀ x, x ∈ l → p x = false.
Proof.
  induction l as [|a l IH]; simpl.
  - split; [|done]. intros _ x Hx. by apply elem_of_nil in Hx.
  - destruct (p a) eqn:Hp.
    + split; [done|]. intros H. specialize (H a (list_elem_of_here _ _)).
      congruence.
    + destruct (findIndex p l) as [i|] eqn:Hf; simpl.
      * split; [done|]. intros H.
        assert (Some i = None) by
          (apply IH; intros x Hx; apply H; by apply list_elem_of_further).
        done.
      * split; [|done]. intros _ x Hx.
        apply elem_of_cons in Hx as [->|Hx]; [done|].
        by apply IH.
Qed.

Lemma find_None_findIndex (l : list A) :
  List.find p l = None ↔ findIndex p l = None.
Proof.
  induction l as [|a l IH]; simpl; [done|].
  destruct (p a); [done|].
  rewrite IH. destruct (findIndex p l); simpl; split; congruence.
Qed.

Lemma find_Some_findIndex (l : list A) (x : A) :
  List.find p l = Some x → ∃ i, findIndex p l = Some i ∧ l !! i = Some x.
Proof.
  intros Hfind. destruct (findIndex p l) as [i|] eqn:Hi.
  - destruct (findIndex_Some l i Hi) as (y & Hy & _ & Hfind' & _).
    exists i. split; [done|]. congruence.
  - apply find_None_findIndex in Hi. congruence.
Qed.

Lemma find_None_iff (l : list A) :
  List.find p l = None ↔ ∀ x, x ∈ l → p x = false.
Proof. rewrite find_None_findIndex. apply findIndex_None. Qed.

(** Overwriting the first match with another match: [find] sees the
    new element. *)
Lemma find_insert_found (l : list A) (i : nat) (x : A) :
  findIndex p l = Some i → p x = true →
  List.find p (<[i := x]> l) = Some x.
Proof.
  revert i. induction l as [|a l IH]; intros i; simpl; [done|].
  destruct (p a) eqn:Hp.
  - intros [= <-] Hx. simpl. by rewrite Hx.
  - destruct (findIndex p l) as [i'|] eqn:Hf; simpl; [|done].
    intros [= <-] Hx. simpl. rewrite Hp. by apply IH.
Qed.

(** Overwriting an element that a predicate rejects with another one
    that it rejects: [find] does not see the change. *)
Lemma find_insert_other (l : list A) (i : nat) (x y : A) :
  l !! i = Some y → p y = false → p x = false →
  List.find p (<[i := x]> l) = List.find p l.
Proof.
  revert i. induction l as [|a l IH]; intros [|i]; simpl; try done.
  - intros [= ->] -> ->. done.
  - intros Hy Hpy Hpx. destruct (p a); [done|]. by apply IH.
Qed.

End Arrays.


(** ** Ids in the store *)

Lemma juice_found_present (id : string) (js : list Juice) (j : Juice) :
  List.find (fun j => String.eqb (j_id j) id) js = Some j →
  j ∈ js ∧ j_id j = id.
Proof.
  intros Hfind. apply find_some in Hfind as [Hin Heq].
  split; [by apply list_elem_of_In | by apply String.eqb_eq].
Qed.

Lemma findIndex_present (id : string) (js : list Juice) :
  is_Some (findIndex (fun j => String.eqb (j_id j) id) js) ↔ present id js.
Proof.
  split.
  - intros [i Hi]. apply findIndex_Some in Hi as (j & Hj & Hid & _).
    exists j. split; [by eapply list_elem_of_lookup_2 | by apply String.eqb_eq].
  - intros (j & Hin & Hid).
    destruct (findIndex _ js) as [i|] eqn:Hi; [by eexists|].
    rewrite findIndex_None in Hi. specialize (Hi j Hin). simpl in Hi.
    apply String.eqb_neq in Hi. done.
Qed.

Lemma findIndex_absent (id : string) (js : list Juice) :
  findIndex (fun j => String.eqb (j_id j) id) js = None ↔ ¬ present id js.
Proof.
  rewrite <- findIndex_present. destruct (findIndex _ js) as [i|].
  - split; [done|]. intros H. destruct H. by eexists.
  - split; [|done]. intros _ [? [=]].
Qed.

(** With distinct ids, removing the first juice under an id leaves none
    under it. *)
Lemma delete_first_absent (id : string) (js : list Juice) (i : nat) :
  NoDup (map j_id js) →
  findIndex (fun j => String.eqb (j_id j) id) js = Some i →
  ¬ present id (delete i js).
Proof.
  revert i. induction js as [|a js IH]; intros i Hnd; simpl; [done|].
  apply NoDup_cons in Hnd as [Hnotin Hnd].
  destruct (String.eqb (j_id a) id) eqn:Ha.
  - intros [= <-]. simpl. apply String.eqb_eq in Ha. subst id.
    intros (j & Hin & Hid). apply Hnotin. rewrite <- Hid.
    apply list_elem_of_In in Hin. apply list_elem_of_In. by apply in_map.
  - destruct (findIndex _ js) as [i'|] eqn:Hi; simpl; [|done].
    intros [= <-]. simpl. intros (j & Hin & Hid).
    apply elem_of_cons in Hin as [->|Hin].
    + apply String.eqb_neq in Ha. done.
    + apply (IH i' Hnd eq_refl). by exists j.
Qed.



(** ** Orders *)

Lemma order_found_present (id : string) (os : list Order) :
  List.find (fun o => String.eqb (o_id o) id) os = None
  ↔ ¬ order_present id os.
Proof.
  rewrite find_None_iff. split.
  - intros H (o & Hin & Hid). specialize (H o Hin). simpl in H.
    apply String.eqb_neq in H. done.
  - intros H o Hin. apply String.eqb_neq. intros Hid. apply H. by exists o.
Qed.

(** C9: [updateOrderStatus id status] throws "Order not found" exactly
    when no order has the id, and leaves the store as it was; otherwise it
    returns the order found with [status] written as given, changing no
    other field, and a later [order(id)] query returns that order, with
    the new status; the other orders and the juices are as before. *)
Theorem updateOrderStatus_sets_status (id status : string) (s : Store) :
  (¬ order_present id (orders s) ↔
     Mutation.updateOrderStatus id status s
     = (Throw (Error "Order not found"), s))
  ∧ (order_present id (orders s) ↔
       ∃ o s', Mutation.updateOrderStatus id status s = (Return o, s'))
  ∧ (∀ o s', Mutation.updateOrderStatus id status s = (Return o, s') →
       o_status o = status
       ∧ (∃ before, Query.order id s = Some before
            ∧ o = Mutation.set_status status before
            ∧ o_id o = o_id before
            ∧ o_customerName o = o_customerName before
            ∧ o_items o = o_items before
            ∧ o_total o = o_total before
            ∧ o_createdAt o = o_createdAt before)
       ∧ Query.order id s' = Some o
       ∧ (∀ id', id' ≠ id → Query.order id' s' = Query.order id' s)
       ∧ length (orders s') = length (orders s)
       ∧ juices s' = juices s).
Proof.
  unfold Mutation.updateOrderStatus, Query.order.
  destruct (List.find _ (orders s)) as [before|] eqn:Hfind.
  - destruct (find_Some_findIndex _ _ _ Hfind) as (i & Hi & Hlook).
    rewrite Hi.
    assert (Hpres : order_present id (orders s)).
    { apply find_some in Hfind as [Hin Heq]. exists before.
      split; [by apply list_elem_of_In | by apply String.eqb_eq]. }
    assert (Hid : String.eqb (o_id before) id = true)
      by (by apply find_some in Hfind as [_ ?]).
    split; [split; [done | intros [=]]|].
    split; [split; [by eexists _, _ | done]|].
    intros o s' [= <- <-]. simpl.
    split; [done|]. split; [by exists before|].
    split; [by apply find_insert_found|].
    split; [|split; [by rewrite length_insert | done]].
    intros id' Hne.
    assert (Hother : String.eqb (o_id before) id' = false).
    { apply String.eqb_neq. apply String.eqb_eq in Hid. congruence. }
    by eapply find_insert_other.
  - pose proof (proj1 (order_found_present id (orders s)) Hfind) as Habs.
    split; [done|]. split; [split; [done | intros (? & ? & [=])]|].
    intros ? ? [=].
Qed.

Lemma updateOrderStatus_sets_status_witness :
  o_status (mkOrder "2" (VStr "Sunny") [VStr "3"] 6.99 "shipped"
              (DateObj "2024-01-16T00:00:00.000Z")) = "shipped"
  ∧ Query.order "2" (Mutation.updateOrderStatus "2" "shipped" seed).2
    = Some (mkOrder "2" (VStr "Sunny") [VStr "3"] 6.99 "shipped"
              (DateObj "2024-01-16T00:00:00.000Z")).
Proof.
  destruct (updateOrderStatus_sets_status "2" "shipped" seed) as (_ & _ & H).
  destruct (H _ _ eq_refl) as (Hstatus & _ & Hget & _).
  split; [exact Hstatus | exact Hget].
Defined.

(** C10: an order with no items is accepted.  The [createOrder] mutation
    on [items = []] appends and returns an order with total 0 and status
    "pending"; [POST /api/orders] with a truthy [customerName] and the
    empty array does the same and answers 201. *)
Theorem createOrder_accepts_empty_items
    (now customerName : string) (name : value) (s : Store) :
  Mutation.createOrder now (mkOrderInput customerName []) s
  = (mkOrder (toString (length (orders s) + 1)) (VStr customerName) []
       0%float "pending" (IsoString now),
     mkStore (juices s)
       (orders s ++
        [mkOrder (toString (length (orders s) + 1)) (VStr customerName) []
           0%float "pending" (IsoString now)]))
  ∧ (truthy name = true →
     Rest.post_api_orders now (mkOrderBody name (VArr [])) s
     = (mkResponse 201
          (OneOrder
             (mkOrder (toString (length (orders s) + 1)) name []
                0%float "pending" (IsoString now))),
        mkStore (juices s)
          (orders s ++
           [mkOrder (toString (length (orders s) + 1)) name []
              0%float "pending" (IsoString now)]))).
Proof.
  split; [reflexivity|]. intros Hname.
  unfold Rest.post_api_orders. simpl. rewrite Hname. reflexivity.
Qed.

Lemma createOrder_accepts_empty_items_witness :
  (Rest.post_api_orders "2024-02-01T10:00:00.000Z"
     (mkOrderBody (VStr "Test") (VArr [])) seed).1
  = mkResponse 201
      (OneOrder (mkOrder "3" (VStr "Test") [] 0%float "pending"
                   (IsoString "2024-02-01T10:00:00.000Z"))).
Proof.
  pose proof (createOrder_accepts_empty_items "2024-02-01T10:00:00.000Z"
                "Test" (VStr "Test") seed) as [_ H].
  rewrite (H eq_refl). reflexivity.
Defined.

(** ** REST writes on juices *)

(** The falsy values: a missing key, [null], [false], a zero, [NaN] and
    the empty string. *)
Lemma truthy_false_iff (v : value) :
  truthy v = false ↔
  v = VUndefined ∨ v = VNull ∨ v = VBool false ∨ v = VStr ""
  ∨ ∃ n, v = VNum n ∧ (PrimFloat.eqb n 0 = true ∨ PrimFloat.is_nan n = true).
Proof.
  destruct v as [| |b|n|t| |]; simpl.
  - tauto.
  - tauto.
  - destruct b; split; try tauto; try done.
    intros [|[|[|[|(?&?&?)]]]]; done.
  - rewrite negb_false_iff, orb_true_iff. split.
    + intros H. do 4 right. by exists n.
    + intros [|[|[|[|(m & [= <-] & H)]]]]; done.
  - rewrite negb_false_iff. split.
    + intros H%String.eqb_eq. subst. tauto.
    + intros [|[|[|[[= ->]|(?&?&?)]]]]; done.
  - split; [done|]. intros [|[|[|[|(?&?&?)]]]]; done.
  - split; [done|]. intros [|[|[|[|(?&?&?)]]]]; done.
Qed.

(** A truthy number is read back by [parseFloat] as it is. *)
Lemma parseFloat_number (parseFloat_text : value → float) (n : float) :
  truthy (VNum n) = true → Rest.parseFloat parseFloat_text (VNum n) = n.
Proof.
  simpl. rewrite negb_true_iff, orb_false_iff. intros [-> _]. done.
Qed.





(** ** Totals *)

Lemma order_total_sum (js : list Juice) (items : list value) :
  order_total js items = float_sum (map (item_price js) items).
Proof.
  unfold order_total, float_sum.
  change (fold_left
            (fun sum itemId => (sum + item_price js itemId)%float) items 0%float
          = fold_left PrimFloat.add (map (item_price js) items) 0%float).
  generalize 0%float.
  induction items as [|itemId items IH]; intros acc; simpl; [done|].
  apply IH.
Qed.

(** C3: [createOrder] returns and appends an order whose total is the sum,
    in item order from 0, of the prices of the juices stored under the
    items' ids, an id that resolves to no juice adding 0; its status is
    "pending" and its id the text of the order count plus one.  On the
    seed data the items "1" and "3" give the total 11.98.
    [POST /api/orders] computes the same order from a truthy
    [customerName] and an array of items. *)
Theorem createOrder_total_is_sum_of_prices
    (now : string) (input : OrderInput) (name : value) (items : list value)
    (s : Store) :
  (∃ o,
     Mutation.createOrder now input s
     = (o, mkStore (juices s) (orders s ++ [o]))
     ∧ o_total o
       = float_sum (map (item_price (juices s)) (map VStr (in_items input)))
     ∧ o_status o = "pending"
     ∧ o_id o = toString (length (orders s) + 1)
     ∧ o_customerName o = VStr (in_customerName input)
     ∧ o_items o = map VStr (in_items input)
     ∧ o_createdAt o = IsoString now)
  ∧ (o_total (Mutation.createOrder now (mkOrderInput "Test" ["1"; "3"]) seed).1
     = 11.98%float
     ∧ o_status
         (Mutation.createOrder now (mkOrderInput "Test" ["1"; "3"]) seed).1
       = "pending")
  ∧ (truthy name = true →
     ∃ o,
       Rest.post_api_orders now (mkOrderBody name (VArr items)) s
       = (mkResponse 201 (OneOrder o),
          mkStore (juices s) (orders s ++ [o]))
       ∧ o_total o = float_sum (map (item_price (juices s)) items)
       ∧ o_status o = "pending"
       ∧ o_id o = toString (length (orders s) + 1)
       ∧ o_customerName o = name
       ∧ o_items o = items).
Proof.
  split; [|split].
  - eexists. split; [reflexivity|]. simpl. split; [|done].
    apply order_total_sum.
  - split; reflexivity.
  - intros Hname. eexists. unfold Rest.post_api_orders. simpl.
    rewrite Hname. simpl. split; [reflexivity|]. simpl. split; [|done].
    apply order_total_sum.
Qed.

Lemma createOrder_total_is_sum_of_prices_witness :
  ∃ o,
    Rest.post_api_orders "2024-02-01T10:00:00.000Z"
      (mkOrderBody (VStr "Test") (VArr [VStr "1"; VStr "9"; VStr "3"])) seed
    = (mkResponse 201 (OneOrder o),
       mkStore (juices seed) (orders seed ++ [o]))
    ∧ o_total o = float_sum [4.99; 0; 6.99]%float.
Proof.
  destruct (createOrder_total_is_sum_of_prices "2024-02-01T10:00:00.000Z"
              (mkOrderInput "Test" [])
              (VStr "Test") [VStr "1"; VStr "9"; VStr "3"] seed)
    as (_ & _ & Hrest).
  destruct (Hrest eq_refl) as (o & Hpost & Htotal & _).
  exists o. split; [exact Hpost | exact Htotal].
Defined.

(** ** The juices of an order *)

Lemma getJuice_Some (itemId : value) (js : list Juice) (j : Juice) :
  getJuice itemId js = Some j → j ∈ js ∧ itemId = VStr (j_id j).
Proof.
  unfold getJuice. intros Hfind. apply find_some in Hfind as [Hin Heq].
  split; [by apply list_elem_of_In|].
  destruct itemId; simpl in Heq; try done.
  apply String.eqb_eq in Heq. by subst.
Qed.

Lemma Order_juices_resolves (js : list Juice) (items : list value) :
  OrderFields.objects
    (List.filter OrderFields.Boolean (map (fun itemId => getJuice itemId js) items))
  = resolveOrderJuices_spec js items.
Proof.
  induction items as [|itemId items IH]; simpl; [done|].
  destruct (getJuice itemId js) as [j|]; simpl; by rewrite IH.
Qed.

(** [filter(Boolean)] leaves only objects: reading them back loses none. *)
Lemma objects_of_filtered (l : list (option Juice)) :
  length (OrderFields.objects (List.filter OrderFields.Boolean l))
  = length (List.filter OrderFields.Boolean l).
Proof.
  induction l as [|[j|] l IH]; simpl; [done| |done]. by rewrite IH.
Qed.

Lemma resolve_ids_sublist (js : list Juice) (items : list value) :
  sublist (map (fun j => VStr (j_id j)) (resolveOrderJuices_spec js items))
          items.
Proof.
  induction items as [|itemId items IH]; simpl; [constructor|].
  destruct (getJuice itemId js) as [j|] eqn:Hget; simpl.
  - apply getJuice_Some in Hget as [_ ->]. by constructor.
  - by constructor.
Qed.

Lemma resolve_elem (js : list Juice) (items : list value) (j : Juice) :
  j ∈ resolveOrderJuices_spec js items
  ↔ ∃ itemId, itemId ∈ items ∧ getJuice itemId js = Some j.
Proof.
  induction items as [|itemId items IH]; simpl.
  - split; [by intros ?%elem_of_nil | by intros (? & ?%elem_of_nil & _)].
  - destruct (getJuice itemId js) as [j'|] eqn:Hget.
    + rewrite elem_of_cons, IH. split.
      * intros [->|(x & Hx & Hj)].
        -- exists itemId. split; [apply list_elem_of_here | done].
        -- exists x. split; [by apply list_elem_of_further | done].
      * intros (x & Hx & Hj). apply elem_of_cons in Hx as [->|Hx].
        -- left. congruence.
        -- right. by exists x.
    + rewrite IH. split.
      * intros (x & Hx & Hj). exists x.
        split; [by apply list_elem_of_further | done].
      * intros (x & Hx & Hj). apply elem_of_cons in Hx as [->|Hx].
        -- congruence.
        -- by exists x.
Qed.

(** C8: the [Order.juices] resolver returns the juices that the items of
    the order resolve to through [getJuice], in item order, an item whose
    id is under no stored juice being dropped: the ids of the result are a
    subsequence of the items, every juice returned is stored under one of
    the items, a resolved item's juice is returned and an unresolved one
    leaves no juice. *)
Theorem Order_juices_resolves_items_in_order (parent : Order) (s : Store) :
  OrderFields.juices parent s
  = resolveOrderJuices_spec (juices s) (o_items parent)
  ∧ OrderFields.juices parent s
    = omap (fun itemId => getJuice itemId (juices s)) (o_items parent)
  ∧ sublist (map (fun j => VStr (j_id j)) (OrderFields.juices parent s))
            (o_items parent)
  ∧ (∀ j, j ∈ OrderFields.juices parent s ↔
          ∃ itemId, itemId ∈ o_items parent
                    ∧ getJuice itemId (juices s) = Some j)
  ∧ (∀ itemId, getJuice itemId (juices s) = None →
       ∀ j, j ∈ OrderFields.juices parent s → VStr (j_id j) ≠ itemId).
Proof.
  assert (Heq : OrderFields.juices parent s
                = resolveOrderJuices_spec (juices s) (o_items parent))
    by apply Order_juices_resolves.
  rewrite Heq. split; [done|]. split.
  { clear Heq. induction (o_items parent) as [|itemId items IH]; simpl; [done|].
    destruct (getJuice itemId (juices s)); simpl; by rewrite IH. }
  split; [apply resolve_ids_sublist|]. split; [apply resolve_elem|].
  intros itemId Hnone j Hj Hid.
  apply resolve_elem in Hj as (x & _ & Hx).
  destruct (getJuice_Some _ _ _ Hx) as [_ Hitem]. congruence.
Qed.

Lemma Order_juices_resolves_items_in_order_witness :
  map j_id
    (OrderFields.juices
       (mkOrder "3" (VStr "Test") [VStr "3"; VStr "9"; VStr "1"] 11.98
          "pending" (IsoString "2024-02-01T10:00:00.000Z")) seed)
  = ["3"; "1"].
Proof.
  destruct (Order_juices_resolves_items_in_order
              (mkOrder "3" (VStr "Test") [VStr "3"; VStr "9"; VStr "1"] 11.98
                 "pending" (IsoString "2024-02-01T10:00:00.000Z")) seed)
    as (-> & _).
  reflexivity.
Defined.

(** ** Search *)





(** *** Lowering against the case of letters *)






Lemma includes_empty (s : string) : includes s "" = true.
Proof. destruct s; reflexivity. Qed.

Lemma filter_result_total {A} (p : A → result bool) (keep : A → bool)
    (l : list A) :
  (∀ x, x ∈ l → p x = Return (keep x)) →
  filter_result p l = Return (List.filter keep l).
Proof.
  induction l as [|x l IH]; intros Hp; simpl; [done|].
  rewrite (Hp x (list_elem_of_here _ _)). simpl.
  rewrite IH; [|intros y Hy; apply Hp; by apply list_elem_of_further].
  simpl. by destruct (keep x).
Qed.

Lemma filter_all {A} (keep : A → bool) (l : list A) :
  (∀ x, x ∈ l → keep x = true) → List.filter keep l = l.
Proof.
  induction l as [|x l IH]; intros H; simpl; [done|].
  rewrite (H x (list_elem_of_here _ _)).
  rewrite IH; [done|]. intros y Hy. apply H. by apply list_elem_of_further.
Qed.






Example searchJuices_berry :
  Query.searchJuices "BERRY" seed
  = Return [mkJuice "3" (VStr "Berry Blast") (VStr "Mixed berries with yogurt")
              6.99 (VStr "Smoothie") (VBool true) (VStr "./images/third.jpg")].
Proof. reflexivity. Qed.

(** Outside the schema's type the callback can throw: a juice created
    through the mutation without a description has none to lower, and a
    query that its name does not contain reaches it. *)
Example searchJuices_without_description :
  Query.searchJuices "berry"
    (Mutation.createJuice
       (mkJuiceInput "Mango Tango" Absent 6.49 Absent Absent Absent) seed).2
  = Throw TypeError.
Proof. reflexivity. Qed.

(** ** Ids of new juices *)

Lemma toString_inj (n m : nat) : toString n = toString m → n = m.
Proof.
  unfold toString. intros H. apply Unsigned.to_uint_inj.
  apply (f_equal NilEmpty.uint_of_string) in H.
  rewrite !NilEmpty.usu in H. congruence.
Qed.

(** While nothing has been deleted the next id is free. *)
Lemma sequential_next_id_free (js : list Juice) :
  sequential js → ¬ present (toString (length js + 1)) js.
Proof.
  unfold sequential. intros Hseq (j & Hin & Hid).
  assert (Hmem : In (toString (length js + 1)) (map j_id js)).
  { rewrite <- Hid. apply in_map. by apply list_elem_of_In. }
  rewrite Hseq in Hmem. apply in_map_iff in Hmem as (k & Hk & Hrange).
  apply toString_inj in Hk. apply in_seq in Hrange. lia.
Qed.

Lemma sequential_push (js : list Juice) (j : Juice) :
  sequential js → j_id j = toString (length js + 1) → sequential (js ++ [j]).
Proof.
  unfold sequential. intros Hseq Hid.
  rewrite map_app, length_app, seq_app, map_app, Hseq. simpl.
  rewrite Hid. do 3 f_equal. lia.
Qed.

Lemma sequential_seed : sequential (juices seed).
Proof. reflexivity. Qed.

Lemma sequential_createJuice (input : JuiceInput) (s : Store) :
  sequential (juices s) →
  sequential (juices (Mutation.createJuice input s).2).
Proof. intros H. by apply sequential_push. Qed.

Lemma sequential_post_api_juices
    (parseFloat_text : value → float) (body : JuiceBody) (s : Store) :
  sequential (juices s) →
  sequential (juices (Rest.post_api_juices parseFloat_text body s).2).
Proof.
  intros H. unfold Rest.post_api_juices.
  destruct (negb _ || negb _); simpl; [done|]. by apply sequential_push.
Qed.

(** C1, at the input where the code leaves it: after [deleteJuice "3"] on
    the seed store four juices are left, the last under id "5"; the next
    [createJuice] assigns the text of 4 + 1, the id "5" again, so that two
    juices of the store carry it. *)
Theorem createJuice_id_repeats_after_delete (input : JuiceInput) :
  Mutation.deleteJuice "3" seed
  = (Return true,
     mkStore (delete 2 (juices seed)) (orders seed))
  ∧ j_id (Mutation.createJuice input (Mutation.deleteJuice "3" seed).2).1
    = "5"
  ∧ present "5" (juices (Mutation.deleteJuice "3" seed).2)
  ∧ ¬ NoDup
        (map j_id
           (juices
              (Mutation.createJuice input
                 (Mutation.deleteJuice "3" seed).2).2)).
Proof.
  split; [reflexivity|]. split; [reflexivity|]. split.
  - eexists. split.
    + simpl. do 3 apply list_elem_of_further. apply list_elem_of_here.
    + reflexivity.
  - simpl. intros Hnd.
    do 3 apply NoDup_cons_1_2 in Hnd. apply NoDup_cons_1_1 in Hnd.
    apply Hnd. apply list_elem_of_here.
Qed.

(** ** Defaults of new juices *)

(** What the two creation paths share: the id, the append and the
    record returned; and the defaults that [POST /api/juices] applies. *)
Lemma createJuice_appends (input : JuiceInput) (s : Store) :
  ∃ newJuice,
    Mutation.createJuice input s
    = (newJuice, mkStore (juices s ++ [newJuice]) (orders s))
    ∧ j_id newJuice = toString (length (juices s) + 1)
    ∧ j_name newJuice = VStr (in_name input)
    ∧ j_price newJuice = in_price input
    ∧ (in_inStock input = Absent → j_inStock newJuice = VBool true)
    ∧ j_description newJuice = spread VStr (in_description input) VUndefined
    ∧ j_category newJuice = spread VStr (in_category input) VUndefined
    ∧ j_imageUrl newJuice = spread VStr (in_imageUrl input) VUndefined.
Proof.
  eexists. split; [reflexivity|]. simpl. repeat split.
  intros ->. reflexivity.
Qed.

Lemma post_api_juices_defaults
    (parseFloat_text : value → float) (name price : value) (s : Store) :
  truthy name = true → truthy price = true →
  Rest.post_api_juices parseFloat_text
    (mkJuiceBody name VUndefined price VUndefined VUndefined VUndefined) s
  = (mkResponse 201
       (OneJuice
          (mkJuice (toString (length (juices s) + 1)) name (VStr "")
             (Rest.parseFloat parseFloat_text price) (VStr "Fruit")
             (VBool true) (VStr "./images/first.jpg"))),
     mkStore
       (juices s ++
        [mkJuice (toString (length (juices s) + 1)) name (VStr "")
           (Rest.parseFloat parseFloat_text price) (VStr "Fruit")
           (VBool true) (VStr "./images/first.jpg")])
       (orders s)).
Proof.
  intros Hname Hprice. unfold Rest.post_api_juices. simpl.
  by rewrite Hname, Hprice.
Qed.

(** C2, at the input where the code leaves it: the [createJuice] mutation
    called with a name and a price only stores a juice that has no
    description, no category and no image (only [inStock] gets its
    default), where [POST /api/juices] on the same two fields stores "",
    "Fruit" and the placeholder path. *)
Theorem createJuice_mutation_leaves_defaults_out
    (parseFloat_text : value → float) :
  Mutation.createJuice
    (mkJuiceInput "Mango Tango" Absent 6.49 Absent Absent Absent) seed
  = (mkJuice "6" (VStr "Mango Tango") VUndefined 6.49 VUndefined
       (VBool true) VUndefined,
     mkStore
       (juices seed ++
        [mkJuice "6" (VStr "Mango Tango") VUndefined 6.49 VUndefined
           (VBool true) VUndefined])
       (orders seed))
  ∧ (Rest.post_api_juices parseFloat_text
       (mkJuiceBody (VStr "Mango Tango") VUndefined (VNum 6.49) VUndefined
          VUndefined VUndefined) seed).1
    = mkResponse 201
        (OneJuice
           (mkJuice "6" (VStr "Mango Tango") (VStr "") 6.49 (VStr "Fruit")
              (VBool true) (VStr "./images/first.jpg"))).
Proof. split; reflexivity. Qed.

(** ** The update mutation *)


Lemma updateJuice_not_found (id : string) (input : JuiceInput) (s : Store) :
  Query.juice id s = None →
  Mutation.updateJuice id input s = (Throw (Error "Juice not found"), s).
Proof.
  unfold Query.juice, Mutation.updateJuice. intros Hfind.
  apply find_None_findIndex in Hfind. by rewrite Hfind.
Qed.

(** * Further properties of the store *)

(** ** More on arrays *)

Lemma find_push {A} (p : A → bool) (l : list A) (x : A) :
  List.find p (l ++ [x])
  = match List.find p l with
    | Some y => Some y
    | None => if p x then Some x else None
    end.
Proof.
  induction l as [|a l IH]; simpl; [done|]. by destruct (p a).
Qed.

Lemma find_delete_other {A} (p : A → bool) (l : list A) (i : nat) (y : A) :
  l !! i = Some y → p y = false → List.find p (delete i l) = List.find p l.
Proof.
  revert i. induction l as [|a l IH]; intros [|i]; simpl; try done.
  - by intros [= ->] ->.
  - intros Hy Hpy. destruct (p a); [done|]. by apply IH.
Qed.

Lemma findIndex_insert_found {A} (p : A → bool) (l : list A) (i : nat)
    (x : A) :
  findIndex p l = Some i → p x = true → findIndex p (<[i := x]> l) = Some i.
Proof.
  revert i. induction l as [|a l IH]; intros i; simpl; [done|].
  destruct (p a) eqn:Hp.
  - intros [= <-] Hx. simpl. by rewrite Hx.
  - destruct (findIndex p l) as [i'|] eqn:Hf; simpl; [|done].
    intros [= <-] Hx. simpl. rewrite Hp. by rewrite (IH i' eq_refl Hx).
Qed.

Lemma map_insert_same {A B} (f : A → B) (l : list A) (i : nat) (x y : A) :
  l !! i = Some y → f x = f y → map f (<[i := x]> l) = map f l.
Proof.
  revert i. induction l as [|a l IH]; intros [|i]; simpl; try done.
  - by intros [= ->] ->.
  - intros Hy Hf. f_equal. by apply IH.
Qed.

Lemma NoDup_map_delete {A B} (f : A → B) (l : list A) (i : nat) :
  NoDup (map f l) → NoDup (map f (delete i l)).
Proof.
  revert i. induction l as [|a l IH]; intros i Hnd; simpl; [by destruct i|].
  simpl in Hnd. apply NoDup_cons in Hnd as [Hnotin Hnd].
  destruct i as [|i]; simpl; [done|].
  apply NoDup_cons. split; [|by apply IH].
  intros Hin. apply Hnotin. clear -Hin.
  revert i Hin. induction l as [|b l IH]; intros i; simpl.
  - by destruct i.
  - destruct i as [|i]; simpl.
    + intros H. by apply list_elem_of_further.
    + rewrite !elem_of_cons. intros [->|H]; [by left | right; by eapply IH].
Qed.

(** ** Reading a juice after a write *)

Lemma juice_after_push (id : string) (js : list Juice) (new : Juice) :
  List.find (fun j => String.eqb (j_id j) id) (js ++ [new])
  = match List.find (fun j => String.eqb (j_id j) id) js with
    | Some old => Some old
    | None => if String.eqb (j_id new) id then Some new else None
    end.
Proof. exact (find_push (fun j => String.eqb (j_id j) id) js new). Qed.

(** A juice just created is the one read back under its id when the id
    was free before, which it is while the ids are sequential; whatever an
    id gave before the creation it still gives after it, so that a new
    juice under a taken id is never reached by id.  The same holds for a
    juice stored by [POST /api/juices]. *)
Theorem createJuice_then_juice
    (parseFloat_text : value → float) (input : JuiceInput) (body : JuiceBody)
    (s : Store) :
  (∀ id old, Query.juice id s = Some old →
     Query.juice id (Mutation.createJuice input s).2 = Some old
     ∧ Query.juice id (Rest.post_api_juices parseFloat_text body s).2
       = Some old)
  ∧ (sequential (juices s) →
     Query.juice (j_id (Mutation.createJuice input s).1)
       (Mutation.createJuice input s).2
     = Some (Mutation.createJuice input s).1
     ∧ ∀ new s',
         Rest.post_api_juices parseFloat_text body s
         = (mkResponse 201 (OneJuice new), s') →
         Query.juice (j_id new) s' = Some new).
Proof.
  split.
  - intros id old Hold. unfold Query.juice in *. split.
    + simpl. by rewrite juice_after_push, Hold.
    + unfold Rest.post_api_juices. destruct (negb _ || negb _); simpl; [done|].
      by rewrite juice_after_push, Hold.
  - intros Hseq. pose proof (sequential_next_id_free _ Hseq) as Hfree.
    apply findIndex_absent, find_None_findIndex in Hfree.
    split.
    + unfold Query.juice. simpl. rewrite juice_after_push, Hfree. simpl.
      by rewrite String.eqb_refl.
    + intros new s'. unfold Rest.post_api_juices, Query.juice.
      destruct (negb _ || negb _); [intros [=]|].
      intros [= <- <-]. simpl. rewrite juice_after_push, Hfree. simpl.
      by rewrite String.eqb_refl.
Qed.

Lemma createJuice_then_juice_witness :
  Query.juice "6"
    (Mutation.createJuice
       (mkJuiceInput "Mango Tango" Absent 6.49 Absent Absent Absent) seed).2
  = Some (mkJuice "6" (VStr "Mango Tango") VUndefined 6.49 VUndefined
            (VBool true) VUndefined).
Proof.
  destruct (createJuice_then_juice (fun _ => nan)
              (mkJuiceInput "Mango Tango" Absent 6.49 Absent Absent Absent)
              (mkJuiceBody VUndefined VUndefined VUndefined VUndefined
                 VUndefined VUndefined) seed) as [_ Hnew].
  destruct (Hnew sequential_seed) as [Hread _]. exact Hread.
Defined.

(** After a juice is deleted every other id reads as before; with
    distinct ids the deleted id reads as absent, and the ids stay
    distinct. *)
Theorem deleteJuice_then_juice (id : string) (s s' : Store) :
  Mutation.deleteJuice id s = (Return true, s') →
  (∀ id', id' ≠ id → Query.juice id' s' = Query.juice id' s)
  ∧ (NoDup (map j_id (juices s)) →
     Query.juice id s' = None ∧ NoDup (map j_id (juices s'))).
Proof.
  unfold Mutation.deleteJuice, Query.juice.
  destruct (findIndex _ (juices s)) as [i|] eqn:Hi; [|intros [=]].
  intros [= <-]. simpl.
  pose proof (findIndex_Some _ _ _ Hi) as (j & Hj & Hid & _).
  apply String.eqb_eq in Hid. split.
  - intros id' Hne. eapply find_delete_other; [done|]. simpl.
    apply String.eqb_neq. congruence.
  - intros Hnd. split; [|by apply NoDup_map_delete].
    apply find_None_findIndex, findIndex_absent.
    by apply delete_first_absent.
Qed.

Lemma deleteJuice_then_juice_witness :
  Query.juice "3" (Mutation.deleteJuice "3" seed).2 = None
  ∧ Query.juice "4" (Mutation.deleteJuice "3" seed).2 = Query.juice "4" seed.
Proof.
  destruct (deleteJuice_then_juice "3" seed _ eq_refl) as [Hother Hgone].
  split.
  - apply Hgone. distinct_strings.
  - apply Hother. discriminate.
Defined.

(** ** The update mutation, in full *)



(** ** What [PUT] cannot do *)

(** [PUT /api/juices/:id] never empties a field: a name, description,
    category or image that was truthy before an accepted update is truthy
    after it, and a defined [inStock] stays defined; the id is the one
    asked for. *)
Theorem put_api_juices_id_never_clears
    (parseFloat_text : value → float) (id : string) (body : JuiceBody)
    (s s' : Store) (new : Juice) :
  Rest.put_api_juices_id parseFloat_text id body s
  = (mkResponse 200 (OneJuice new), s') →
  ∃ old,
    Query.juice id s = Some old
    ∧ j_id new = id
    ∧ (truthy (j_name old) = true → truthy (j_name new) = true)
    ∧ (truthy (j_description old) = true → truthy (j_description new) = true)
    ∧ (truthy (j_category old) = true → truthy (j_category new) = true)
    ∧ (truthy (j_imageUrl old) = true → truthy (j_imageUrl new) = true)
    ∧ (is_defined (j_inStock old) = true → is_defined (j_inStock new) = true).
Proof.
  unfold Rest.put_api_juices_id, Query.juice.
  destruct (List.find _ (juices s)) as [old|] eqn:Hfind; [|intros [=]].
  destruct (find_Some_findIndex _ _ _ Hfind) as (i & Hi & _). rewrite Hi.
  intros [= <- <-]. exists old.
  destruct (juice_found_present _ _ _ Hfind) as [_ Hid].
  simpl. unfold js_or.
  repeat split; try done.
  - by destruct (truthy (b_name body)) eqn:?.
  - by destruct (truthy (b_description body)) eqn:?.
  - by destruct (truthy (b_category body)) eqn:?.
  - by destruct (truthy (b_imageUrl body)) eqn:?.
  - by destruct (is_defined (b_inStock body)) eqn:?.
Qed.

Lemma put_api_juices_id_never_clears_witness :
  ∃ old,
    Query.juice "1" seed = Some old
    ∧ truthy
        (j_name
           (Rest.assign (fun _ => nan) old
              (mkJuiceBody (VStr "") VNull VUndefined VUndefined VUndefined
                 VUndefined)))
      = true.
Proof.
  destruct (put_api_juices_id_never_clears (fun _ => nan) "1"
              (mkJuiceBody (VStr "") VNull VUndefined VUndefined VUndefined
                 VUndefined) seed _ _ eq_refl)
    as (old & Hold & _ & Hname & _).
  exists old. split; [exact Hold|].
  injection Hold as <-. exact (Hname eq_refl).
Defined.

(** ** Reads over REST *)

(** [GET /api/juices/:id] answers 404 exactly when no juice has the id;
    otherwise it answers 200 with the juice that the [juice] query gives,
    the first one stored under the id. *)
Theorem get_api_juices_id_found_or_404 (id : string) (s : Store) :
  (¬ present id (juices s) ↔
     Rest.get_api_juices_id id s = mkResponse 404 (Message "Juice not found"))
  ∧ (present id (juices s) ↔
       ∃ j, Rest.get_api_juices_id id s = mkResponse 200 (OneJuice j))
  ∧ (∀ j, Rest.get_api_juices_id id s = mkResponse 200 (OneJuice j) ↔
          Query.juice id s = Some j)
  ∧ (∀ j, Query.juice id s = Some j → j ∈ juices s ∧ j_id j = id).
Proof.
  unfold Rest.get_api_juices_id, Query.juice.
  destruct (List.find _ (juices s)) as [j|] eqn:Hfind.
  - destruct (juice_found_present _ _ _ Hfind) as [Hin Hid].
    assert (Hpres : present id (juices s)) by (by exists j).
    split; [split; [done | intros [=]]|].
    split; [split; [by eexists | done]|].
    split; [intros j'; split; congruence|].
    by intros j' [= <-].
  - apply find_None_findIndex, findIndex_absent in Hfind as Habs.
    split; [done|]. split; [split; [done | intros [? [=]]]|].
    split; [intros j'; split; intros [=] | intros ? [=]].
Qed.

Lemma get_api_juices_id_found_or_404_witness :
  Rest.get_api_juices_id "9" seed = mkResponse 404 (Message "Juice not found").
Proof.
  destruct (get_api_juices_id_found_or_404 "9" seed) as [Habsent _].
  apply Habsent. intros (j & Hin & Hid).
  unfold seed, seed_juices in Hin. simpl in Hin.
  rewrite !elem_of_cons, elem_of_nil in Hin.
  destruct Hin as [->|[->|[->|[->|[->|[]]]]]]; discriminate.
Defined.

(** ** Status updates in sequence *)

(** The last status written is the one that stays: a status update that
    follows another one on the same id gives the result and the store that
    it gives alone; so writing the same status twice is writing it once. *)
Theorem updateOrderStatus_last_write_wins (id first last : string)
    (s : Store) :
  Mutation.updateOrderStatus id last
    (Mutation.updateOrderStatus id first s).2
  = Mutation.updateOrderStatus id last s.
Proof.
  unfold Mutation.updateOrderStatus.
  destruct (List.find _ (orders s)) as [o|] eqn:Hfind;
    [|simpl; by rewrite Hfind].
  destruct (find_Some_findIndex _ _ _ Hfind) as (i & Hi & Hlook).
  assert (Hid : String.eqb (o_id o) id = true)
    by (by apply find_some in Hfind as [_ ?]).
  rewrite Hi. simpl.
  rewrite (find_insert_found _ _ i (Mutation.set_status first o) Hi Hid).
  rewrite (findIndex_insert_found _ _ i (Mutation.set_status first o) Hi Hid).
  by rewrite list_insert_insert_eq.
Qed.

(** ** Validation of [POST /api/orders] *)

(** [POST /api/orders] answers 400, storing nothing, exactly when
    [customerName] is falsy or [items] is not an array; an array of any
    values, of any length, is accepted, and the answer is then 201 with
    one order more in the store. *)
Theorem post_api_orders_rejects_exactly (now : string) (body : OrderBody)
    (s : Store) :
  (truthy (b_customerName body) = false ∨ isArray (b_items body) = false ↔
     Rest.post_api_orders now body s
     = (mkResponse 400
          (Message "Customer name and items array are required"), s))
  ∧ (truthy (b_customerName body) = true ∧ isArray (b_items body) = true ↔
       ∃ o,
         Rest.post_api_orders now body s
         = (mkResponse 201 (OneOrder o),
            mkStore (juices s) (orders s ++ [o])))
  ∧ (∀ r s', Rest.post_api_orders now body s = (r, s') →
       status r = 400 ∧ s' = s
       ∨ status r = 201 ∧ length (orders s') = length (orders s) + 1).
Proof.
  unfold Rest.post_api_orders.
  destruct (truthy (b_customerName body)) eqn:Hname;
    destruct (isArray (b_items body)) eqn:Harr.
  - assert (Hitems : truthy (b_items body) = true)
      by (by destruct (b_items body)).
    rewrite Hitems. simpl.
    split; [split; [by intros [|] | intros [=]]|].
    split; [split; [by eexists | done]|].
    intros r s' [= <- <-]. right. simpl. by rewrite length_app.
  - rewrite orb_true_r.
    split; [split; [done | by right]|].
    split; [split; [by intros [_ ?] | intros [? [=]]]|].
    intros r s' [= <- <-]. by left.
  - simpl.
    split; [split; [done | by left]|].
    split; [split; [by intros [? _] | intros [? [=]]]|].
    intros r s' [= <- <-]. by left.
  - simpl.
    split; [split; [done | by left]|].
    split; [split; [by intros [? _] | intros [? [=]]]|].
    intros r s' [= <- <-]. by left.
Qed.

Lemma post_api_orders_rejects_exactly_witness :
  Rest.post_api_orders "2024-02-01T10:00:00.000Z"
    (mkOrderBody (VStr "Test") (VStr "1,3")) seed
  = (mkResponse 400
       (Message "Customer name and items array are required"), seed).
Proof.
  destruct (post_api_orders_rejects_exactly "2024-02-01T10:00:00.000Z"
              (mkOrderBody (VStr "Test") (VStr "1,3")) seed)
    as [Hreject _].
  apply Hreject. right. reflexivity.
Defined.

(** ** The two front-ends on the same input *)

(** On a non-empty customer name and a list of string ids,
    [POST /api/orders] stores and answers the order that the [createOrder]
    mutation stores and returns.  On the empty name they part: the
    mutation stores the order, the REST handler answers 400. *)
Theorem createOrder_rest_agrees (now customerName : string)
    (items : list string) (s : Store) :
  (customerName ≠ "" →
   Rest.post_api_orders now
     (mkOrderBody (VStr customerName) (VArr (map VStr items))) s
   = (mkResponse 201
        (OneOrder
           (Mutation.createOrder now (mkOrderInput customerName items) s).1),
      (Mutation.createOrder now (mkOrderInput customerName items) s).2))
  ∧ (Rest.post_api_orders now
       (mkOrderBody (VStr "") (VArr (map VStr items))) s).2 = s
  ∧ length
      (orders (Mutation.createOrder now (mkOrderInput "" items) s).2)
    = length (orders s) + 1.
Proof.
  split; [|split].
  - intros Hname. unfold Rest.post_api_orders. simpl.
    apply String.eqb_neq in Hname. by rewrite Hname.
  - reflexivity.
  - simpl. by rewrite length_app.
Qed.

Lemma createOrder_rest_agrees_witness :
  (Rest.post_api_orders "2024-02-01T10:00:00.000Z"
     (mkOrderBody (VStr "Test") (VArr (map VStr ["1"; "3"]))) seed).1
  = mkResponse 201
      (OneOrder
         (mkOrder "3" (VStr "Test") [VStr "1"; VStr "3"] 11.98 "pending"
            (IsoString "2024-02-01T10:00:00.000Z"))).
Proof.
  destruct (createOrder_rest_agrees "2024-02-01T10:00:00.000Z" "Test"
              ["1"; "3"] seed) as [Hsame _].
  rewrite Hsame; [reflexivity | discriminate].
Defined.

(** On an input that gives every field a truthy value (the number not 0
    and not NaN, the strings not empty), [POST /api/juices] stores and
    answers the juice that the [createJuice] mutation stores and
    returns. *)
Theorem createJuice_rest_agrees
    (parseFloat_text : value → float) (name description category image : string)
    (price : float) (inStock : bool) (s : Store) :
  name ≠ "" → description ≠ "" → category ≠ "" → image ≠ "" →
  truthy (VNum price) = true →
  Rest.post_api_juices parseFloat_text
    (mkJuiceBody (VStr name) (VStr description) (VNum price) (VStr category)
       (VBool inStock) (VStr image)) s
  = (mkResponse 201
       (OneJuice
          (Mutation.createJuice
             (mkJuiceInput name (Given description) price (Given category)
                (Given inStock) (Given image)) s).1),
     (Mutation.createJuice
        (mkJuiceInput name (Given description) price (Given category)
           (Given inStock) (Given image)) s).2).
Proof.
  intros Hn Hd Hc Hi Hprice.
  apply String.eqb_neq in Hn, Hd, Hc, Hi.
  unfold Rest.post_api_juices, js_or.
  cbn [b_name b_description b_price b_category b_inStock b_imageUrl].
  rewrite Hprice. cbn [truthy].
  rewrite Hn, Hd, Hc, Hi. cbn [negb orb is_defined].
  rewrite (parseFloat_number parseFloat_text price Hprice).
  reflexivity.
Qed.

Lemma createJuice_rest_agrees_witness :
  (Rest.post_api_juices (fun _ => nan)
     (mkJuiceBody (VStr "Mango Tango") (VStr "Fresh mango") (VNum 6.49)
        (VStr "Fruit") (VBool true) (VStr "./images/mango.jpg")) seed).1
  = mkResponse 201
      (OneJuice
         (mkJuice "6" (VStr "Mango Tango") (VStr "Fresh mango") 6.49
            (VStr "Fruit") (VBool true) (VStr "./images/mango.jpg"))).
Proof.
  rewrite (createJuice_rest_agrees (fun _ => nan) "Mango Tango" "Fresh mango"
             "Fruit" "./images/mango.jpg" 6.49 true seed);
    [reflexivity | discriminate | discriminate | discriminate | discriminate
    | reflexivity].
Defined.

(** ** Items that are not strings *)

Lemma getJuice_not_string (v : value) (js : list Juice) :
  is_string v = false → getJuice v js = None.
Proof.
  intros Hv. unfold getJuice. apply find_None_iff. intros j _.
  by destruct v.
Qed.

Lemma item_price_not_string (v : value) (js : list Juice) :
  is_string v = false → item_price js v = 0%float.
Proof.
  intros Hv. unfold item_price. by rewrite (getJuice_not_string v js Hv).
Qed.

(** An item of an order that is not a string (a number, say, as
    [POST /api/orders] lets through) is under no juice, whatever the
    store: the strict comparison with an id fails.  An order of such items
    only has total 0 and resolves to no juice. *)
Theorem non_string_items_resolve_to_nothing
    (now : string) (name : value) (items : list value) (s : Store) :
  Forall (fun v => is_string v = false) items →
  truthy name = true →
  ∃ o,
    Rest.post_api_orders now (mkOrderBody name (VArr items)) s
    = (mkResponse 201 (OneOrder o), mkStore (juices s) (orders s ++ [o]))
    ∧ o_items o = items
    ∧ o_total o = 0%float
    ∧ ∀ s', OrderFields.juices o s' = [].
Proof.
  intros Hitems Hname. unfold Rest.post_api_orders. simpl. rewrite Hname.
  simpl. eexists. split; [reflexivity|]. simpl. split; [done|]. split.
  - rewrite order_total_sum. unfold float_sum.
    induction Hitems as [|v items Hv _ IH]; [done|].
    cbn [map fold_left]. rewrite (item_price_not_string v _ Hv).
    change (0 + 0)%float with 0%float. exact IH.
  - intros s'.
    change (OrderFields.objects
              (List.filter OrderFields.Boolean
                 (map (fun itemId => getJuice itemId (juices s')) items))
            = []).
    rewrite Order_juices_resolves.
    induction Hitems as [|v items Hv _ IH]; [done|].
    cbn [resolveOrderJuices_spec].
    by rewrite (getJuice_not_string v _ Hv).
Qed.

Lemma non_string_items_resolve_to_nothing_witness :
  ∃ o,
    Rest.post_api_orders "2024-02-01T10:00:00.000Z"
      (mkOrderBody (VStr "Test") (VArr [VNum 1; VNum 3])) seed
    = (mkResponse 201 (OneOrder o),
       mkStore (juices seed) (orders seed ++ [o]))
    ∧ o_total o = 0%float.
Proof.
  destruct (non_string_items_resolve_to_nothing "2024-02-01T10:00:00.000Z"
              (VStr "Test") [VNum 1; VNum 3] seed)
    as (o & Hpost & _ & Htotal & _).
  - repeat constructor.
  - reflexivity.
  - exists o. split; [exact Hpost | exact Htotal].
Defined.

(** ** Categories *)

(** [juicesByCategory] gives, in store order, the juices whose category is
    the very string asked for: no other case of its letters, no other
    value. *)
Theorem juicesByCategory_exact (category : string) (s : Store) :
  (∀ j, j ∈ Query.juicesByCategory category s
        ↔ j ∈ juices s ∧ j_category j = VStr category)
  ∧ sublist (Query.juicesByCategory category s) (juices s)
  ∧ (Query.juicesByCategory category s = juices s
     ↔ ∀ j, j ∈ juices s → j_category j = VStr category).
Proof.
  unfold Query.juicesByCategory.
  assert (Htest : ∀ j, strict_eq_str category (j_category j) = true
                       ↔ j_category j = VStr category).
  { intros j. destruct (j_category j); simpl;
      try (split; [done | intros [=]]).
    rewrite String.eqb_eq. split; [by intros -> | by intros [= ->]]. }
  split; [|split].
  - intros j. rewrite list_elem_of_In, filter_In, <- list_elem_of_In.
    by rewrite Htest.
  - induction (juices s) as [|a l IH]; simpl; [constructor|].
    destruct (strict_eq_str _ _); by constructor.
  - split.
    + intros Hall j Hj. apply Htest.
      rewrite <- Hall in Hj. apply list_elem_of_In, filter_In in Hj. tauto.
    + intros Hall. apply filter_all. intros j Hj. apply Htest. by apply Hall.
Qed.

Lemma juicesByCategory_exact_witness :
  map j_id (Query.juicesByCategory "Fruit" seed) = ["1"; "5"]
  ∧ Query.juicesByCategory "fruit" seed = [].
Proof.
  split; [reflexivity|].
  destruct (juicesByCategory_exact "fruit" seed) as [Hmem _].
  destruct (Query.juicesByCategory "fruit" seed) as [|j l] eqn:Hl; [done|].
  exfalso. destruct (proj1 (Hmem j) (list_elem_of_here _ _)) as [Hin Hcat].
  unfold seed, seed_juices in Hin. simpl in Hin.
  rewrite !elem_of_cons, elem_of_nil in Hin.
  destruct Hin as [->|[->|[->|[->|[->|[]]]]]]; discriminate.
Defined.

(** ** Orders whose juices are deleted *)

Lemma getJuice_after_delete (id : string) (js : list Juice) (i : nat)
    (itemId : value) :
  NoDup (map j_id js) →
  findIndex (fun j => String.eqb (j_id j) id) js = Some i →
  getJuice itemId (delete i js)
  = if strict_eq_str id itemId then None else getJuice itemId js.
Proof.
  intros Hnd Hi.
  pose proof (findIndex_Some _ _ _ Hi) as (y & Hy & Hid & _).
  apply String.eqb_eq in Hid.
  destruct (strict_eq_str id itemId) eqn:Hitem.
  - destruct itemId as [| | | |t| |]; simpl in Hitem; try done.
    apply String.eqb_eq in Hitem. subst t.
    pose proof (delete_first_absent id js i Hnd Hi) as Habs.
    apply findIndex_absent, find_None_findIndex in Habs. exact Habs.
  - unfold getJuice. eapply find_delete_other; [exact Hy|].
    simpl. by rewrite Hid.
Qed.

(** An order keeps the id of a deleted juice among its items, and its
    total; its [juices] field follows the store: with distinct ids, after
    [deleteJuice id] it is what it was before without the juice under
    [id], the others in the same order. *)
Theorem Order_juices_after_delete (id : string) (parent : Order)
    (s s' : Store) :
  NoDup (map j_id (juices s)) →
  Mutation.deleteJuice id s = (Return true, s') →
  OrderFields.juices parent s'
  = List.filter (fun j => negb (String.eqb (j_id j) id))
      (OrderFields.juices parent s)
  ∧ orders s' = orders s.
Proof.
  intros Hnd. unfold Mutation.deleteJuice.
  destruct (findIndex _ (juices s)) as [i|] eqn:Hi; [|intros [=]].
  intros [= <-]. split; [|done].
  change (OrderFields.juices parent s)
    with (OrderFields.objects
            (List.filter OrderFields.Boolean
               (map (fun itemId => getJuice itemId (juices s))
                  (o_items parent)))).
  rewrite Order_juices_resolves.
  change (OrderFields.juices parent
            (mkStore (delete i (juices s)) (orders s)))
    with (OrderFields.objects
            (List.filter OrderFields.Boolean
               (map (fun itemId => getJuice itemId (delete i (juices s)))
                  (o_items parent)))).
  rewrite Order_juices_resolves.
  induction (o_items parent) as [|itemId items IH]; [done|].
  cbn [resolveOrderJuices_spec].
  rewrite (getJuice_after_delete id _ i itemId Hnd Hi).
  destruct (strict_eq_str id itemId) eqn:Hitem.
  - destruct (getJuice itemId (juices s)) as [j|] eqn:Hget; [|exact IH].
    destruct (getJuice_Some _ _ _ Hget) as [_ ->]. simpl in Hitem.
    cbn [List.filter]. rewrite String.eqb_sym, Hitem. exact IH.
  - destruct (getJuice itemId (juices s)) as [j|] eqn:Hget; [|exact IH].
    destruct (getJuice_Some _ _ _ Hget) as [_ ->]. simpl in Hitem.
    cbn [List.filter]. rewrite String.eqb_sym, Hitem. simpl. by rewrite IH.
Qed.

Lemma Order_juices_after_delete_witness :
  map j_id
    (OrderFields.juices
       (mkOrder "1" (VStr "Pavan") [VStr "1"; VStr "2"] 10.98 "completed"
          (DateObj "2024-01-15T00:00:00.000Z"))
       (Mutation.deleteJuice "1" seed).2)
  = ["2"].
Proof.
  destruct (Order_juices_after_delete "1"
              (mkOrder "1" (VStr "Pavan") [VStr "1"; VStr "2"] 10.98
                 "completed" (DateObj "2024-01-15T00:00:00.000Z"))
              seed (Mutation.deleteJuice "1" seed).2) as [-> _].
  - distinct_strings.
  - reflexivity.
  - reflexivity.
Defined.

(** ** When a search throws *)

Lemma lower_includes_throws (v : value) (q : string) :
  (Query.lower_includes v q = Throw TypeError ↔ is_string v = false)
  ∧ ∀ e, Query.lower_includes v q = Throw e → e = TypeError.
Proof.
  destruct v; simpl; split; try done; try (intros e [= <-]; done).
Qed.

Lemma search_callback_throws (q : string) (j : Juice) :
  (Query.search_callback q j = Throw TypeError ↔
     is_string (j_name j) = false
     ∨ Query.lower_includes (j_name j) q = Return false
       ∧ (is_string (j_description j) = false
          ∨ Query.lower_includes (j_description j) q = Return false
            ∧ is_string (j_category j) = false))
  ∧ ∀ e, Query.search_callback q j = Throw e → e = TypeError.
Proof.
  unfold Query.search_callback.
  destruct (j_name j) as [| | | |n| |]; simpl;
    try (split; [split; [by left | done] | by intros e [= <-]]).
  destruct (includes (toLowerCase n) q); simpl.
  { split; [|intros ? [=]]. split; [intros [=]|].
    intros [[=]|[[=] _]]. }
  destruct (j_description j) as [| | | |d| |]; simpl;
    try (split; [split; [right; split; [done | by left] | done]
                | by intros e [= <-]]).
  destruct (includes (toLowerCase d) q); simpl.
  { split; [|intros ? [=]]. split; [intros [=]|].
    intros [[=]|[_ [[=]|[[=] _]]]]. }
  destruct (j_category j) as [| | | |c| |]; simpl;
    try (split; [split; [right; split; [done|]; right; by split | done]
                | by intros e [= <-]]).
  split; [|intros ? [=]]. split; [intros [=]|].
  intros [[=]|[_ [[=]|[_ [=]]]]].
Qed.

Lemma filter_result_throws {A} (p : A → result bool) (l : list A) :
  (∀ x e, p x = Throw e → e = TypeError) →
  (filter_result p l = Throw TypeError ↔ ∃ x, x ∈ l ∧ p x = Throw TypeError)
  ∧ (∀ e, filter_result p l = Throw e → e = TypeError)
  ∧ (∀ r, filter_result p l = Return r → sublist r l).
Proof.
  intros Honly. induction l as [|x l (IHt & IHe & IHr)]; simpl.
  - split; [|split].
    + split; [done | by intros (? & ?%elem_of_nil & _)].
    + intros ? [=].
    + intros r [= <-]. constructor.
  - destruct (p x) as [b|e] eqn:Hp; simpl.
    + destruct (filter_result p l) as [r|e] eqn:Hrest; simpl.
      * split; [|split].
        -- split; [done|]. intros (y & Hy & Hthrow).
           apply elem_of_cons in Hy as [->|Hy]; [congruence|].
           assert (Hno : @Return (list A) r = Throw TypeError)
             by (apply IHt; by exists y).
           done.
        -- intros ? [=].
        -- intros r' [= <-]. specialize (IHr r eq_refl).
           destruct b; by constructor.
      * split; [|split].
        -- split.
           ++ intros [= ->]. destruct (proj1 IHt eq_refl) as (y & Hy & Hthrow).
              exists y. split; [by apply list_elem_of_further | done].
           ++ intros _. f_equal. by apply IHe.
        -- intros e' [= <-]. by apply IHe.
        -- intros ? [=].
    + pose proof (Honly x e Hp) as ->. split; [|split].
      * split; [|done]. intros _. exists x.
        split; [apply list_elem_of_here | done].
      * by intros ? [= <-].
      * intros ? [=].
Qed.

(** [searchJuices] either returns a sub-list of the store, in store
    order, or throws a [TypeError], never another error.  It throws
    exactly when the store has a juice on which the test reaches a field
    that is not a string: the name; or the description, when the name does
    not contain the query; or the category, when neither does.  So the
    empty query, which every name contains, returns the whole store as
    soon as every name is a string, whatever the other fields are. *)
Theorem searchJuices_throws_TypeError_only (query : string) (s : Store) :
  (∀ e, Query.searchJuices query s = Throw e → e = TypeError)
  ∧ (Query.searchJuices query s = Throw TypeError ↔
       ∃ j, j ∈ juices s
            ∧ (is_string (j_name j) = false
               ∨ Query.lower_includes (j_name j) (toLowerCase query)
                 = Return false
                 ∧ (is_string (j_description j) = false
                    ∨ Query.lower_includes (j_description j)
                        (toLowerCase query) = Return false
                      ∧ is_string (j_category j) = false)))
  ∧ (∀ r, Query.searchJuices query s = Return r → sublist r (juices s))
  ∧ ((∀ j, j ∈ juices s → is_string (j_name j) = true) →
     Query.searchJuices "" s = Return (juices s)).
Proof.
  unfold Query.searchJuices.
  destruct (filter_result_throws
              (Query.search_callback (toLowerCase query)) (juices s))
    as (Hthrow & Honly & Hsub).
  { intros j e. apply search_callback_throws. }
  split; [exact Honly|]. split; [|split; [exact Hsub|]].
  - rewrite Hthrow. split; intros (j & Hj & H); exists j; (split; [done|]);
      by apply search_callback_throws.
  - intros Hnames.
    rewrite (filter_result_total _ (fun _ => true)).
    + f_equal. by apply filter_all.
    + intros j Hj. specialize (Hnames j Hj).
      unfold Query.search_callback.
      destruct (j_name j); try done. simpl. by rewrite includes_empty.
Qed.

Lemma searchJuices_throws_TypeError_only_witness :
  Query.searchJuices ""
    (Mutation.createJuice
       (mkJuiceInput "Mango Tango" Absent 6.49 Absent Absent Absent) seed).2
  = Return
      (juices
         (Mutation.createJuice
            (mkJuiceInput "Mango Tango" Absent 6.49 Absent Absent Absent)
            seed).2).
Proof.
  destruct (searchJuices_throws_TypeError_only ""
              (Mutation.createJuice
                 (mkJuiceInput "Mango Tango" Absent 6.49 Absent Absent Absent)
                 seed).2) as (_ & _ & _ & Hall).
  apply Hall. intros j Hj. simpl in Hj. unfold seed_juices in Hj. simpl in Hj.
  rewrite !elem_of_cons, elem_of_nil in Hj.
  destruct Hj as [->|[->|[->|[->|[->|[->|[]]]]]]]; reflexivity.
Defined.

(** ** Requests in sequence: what every run keeps *)

Lemma run_snoc (parseFloat_text : value → float) (rs : list request)
    (r : request) (s : Store) :
  run parseFloat_text (rs ++ [r]) s
  = handle parseFloat_text r (run parseFloat_text rs s).
Proof. unfold run. by rewrite fold_left_app. Qed.

(** An invariant of every request is an invariant of every run. *)
Lemma run_invariant (parseFloat_text : value → float) (P : Store → Prop)
    (allowed : request → bool) :
  (∀ r s, allowed r = true → P s → P (handle parseFloat_text r s)) →
  ∀ rs s, forallb allowed rs = true → P s → P (run parseFloat_text rs s).
Proof.
  intros Hstep rs. induction rs as [|r rs IH]; intros s Hall Hs; [done|].
  simpl in Hall. apply andb_true_iff in Hall as [Hr Hrs].
  apply IH; [done|]. by apply Hstep.
Qed.

Lemma handle_orders_of_juice_request (parseFloat_text : value → float)
    (r : request) (s : Store) :
  on_orders r = false → orders (handle parseFloat_text r s) = orders s.
Proof.
  destruct r; simpl; try done; intros _.
  - unfold Mutation.updateJuice. destruct (findIndex _ _); [|done].
    by destruct (_ !! _).
  - unfold Mutation.deleteJuice. by destruct (findIndex _ _).
  - unfold Rest.post_api_juices. by destruct (negb _ || negb _).
  - unfold Rest.put_api_juices_id. destruct (List.find _ _); [|done].
    by destruct (findIndex _ _).
  - unfold Rest.delete_api_juices_id. by destruct (findIndex _ _).
Qed.

Lemma handle_juices_of_order_request (parseFloat_text : value → float)
    (r : request) (s : Store) :
  on_orders r = true → juices (handle parseFloat_text r s) = juices s.
Proof.
  destruct r; simpl; try done; intros _.
  - unfold Mutation.updateOrderStatus. destruct (List.find _ _); [|done].
    by destruct (findIndex _ _).
  - unfold Rest.post_api_orders. by destruct (_ || _ || _).
Qed.

(** A request on juices leaves every order as it is, its total included:
    a total is not computed again when a price changes or a juice is
    deleted.  A request on orders leaves every juice as it is. *)
Theorem requests_keep_to_their_array (parseFloat_text : value → float)
    (r : request) (s : Store) :
  (on_orders r = false → orders (handle parseFloat_text r s) = orders s)
  ∧ (on_orders r = true → juices (handle parseFloat_text r s) = juices s).
Proof.
  split;
    [apply handle_orders_of_juice_request
    | apply handle_juices_of_order_request].
Qed.

Lemma requests_keep_to_their_array_witness :
  map o_total
    (orders
       (handle (fun _ => nan)
          (PutJuice "1"
             (mkJuiceBody VUndefined VUndefined (VNum 9.99) VUndefined
                VUndefined VUndefined)) seed))
  = [10.98; 6.99]%float.
Proof.
  destruct (requests_keep_to_their_array (fun _ => nan)
              (PutJuice "1"
                 (mkJuiceBody VUndefined VUndefined (VNum 9.99) VUndefined
                    VUndefined VUndefined)) seed) as [Horders _].
  rewrite (Horders eq_refl). reflexivity.
Defined.

(** *** Orders are never lost *)

Lemma frozen_set_status (status : string) (o : Order) :
  frozen (Mutation.set_status status o) = frozen o.
Proof. reflexivity. Qed.

Lemma handle_frozen_prefix (parseFloat_text : value → float) (r : request)
    (s : Store) :
  map frozen (orders s)
    `prefix_of` map frozen (orders (handle parseFloat_text r s)).
Proof.
  destruct (on_orders r) eqn:Hr;
    [|by rewrite handle_orders_of_juice_request].
  destruct r; simpl in *; try done.
  - rewrite map_app. by apply prefix_app_r.
  - unfold Mutation.updateOrderStatus.
    destruct (List.find _ (orders s)) as [o|] eqn:Hfind; [|done].
    destruct (find_Some_findIndex _ _ _ Hfind) as (i & Hi & Hlook).
    rewrite Hi. simpl.
    by rewrite (map_insert_same frozen _ i _ o Hlook (frozen_set_status _ o)).
  - unfold Rest.post_api_orders. destruct (_ || _ || _); simpl; [done|].
    rewrite map_app. by apply prefix_app_r.
Qed.

(** No run of requests removes an order or changes the id, the customer,
    the items, the total or the creation time of one: the orders of a
    state, their status apart, are the first orders of every later state.
    Only the status of an order can change. *)
Theorem orders_are_never_lost (parseFloat_text : value → float)
    (rs : list request) (s : Store) :
  map frozen (orders s)
    `prefix_of` map frozen (orders (run parseFloat_text rs s))
  ∧ length (orders s) ≤ length (orders (run parseFloat_text rs s))
  ∧ ∀ i o, orders s !! i = Some o →
      ∃ o', orders (run parseFloat_text rs s) !! i = Some o'
            ∧ frozen o' = frozen o.
Proof.
  assert (Hprefix : map frozen (orders s)
            `prefix_of` map frozen (orders (run parseFloat_text rs s))).
  { revert s. induction rs as [|r rs IH]; intros s; [done|].
    simpl. etrans; [apply handle_frozen_prefix | apply IH]. }
  split; [exact Hprefix|]. split.
  - apply prefix_length in Hprefix. by rewrite !length_map in Hprefix.
  - intros i o Hlook. destruct Hprefix as [rest Hrest].
    assert (Hmap : map frozen (orders (run parseFloat_text rs s)) !! i
                   = Some (frozen o)).
    { rewrite Hrest. apply lookup_app_l_Some.
      clear -Hlook. revert i Hlook.
      induction (orders s) as [|a l IH]; intros [|i]; simpl; try done.
      - by intros [= ->].
      - apply IH. }
    clear -Hmap. revert i Hmap.
    induction (orders (run parseFloat_text rs s)) as [|a l IH];
      intros [|i]; simpl; try done.
    + intros Ha. exists a. split; [done | congruence].
    + apply IH.
Qed.

(** *** Order ids *)

Lemma NoDup_map_toString (start n : nat) :
  NoDup (map toString (seq start n)).
Proof.
  revert start. induction n as [|n IH]; intros start; simpl;
    [apply NoDup_nil_2|].
  apply NoDup_cons_2; [|apply IH].
  rewrite list_elem_of_In, in_map_iff. intros (k & Hk & Hin).
  apply toString_inj in Hk. apply in_seq in Hin. lia.
Qed.

Lemma order_sequential_push (os : list Order) (o : Order) :
  order_sequential os → o_id o = toString (length os + 1) →
  order_sequential (os ++ [o]).
Proof.
  unfold order_sequential. intros Hseq Hid.
  rewrite map_app, length_app, seq_app, map_app, Hseq. simpl.
  rewrite Hid. do 3 f_equal. lia.
Qed.

Lemma order_sequential_next_id_free (os : list Order) :
  order_sequential os → ¬ order_present (toString (length os + 1)) os.
Proof.
  unfold order_sequential. intros Hseq (o & Hin & Hid).
  assert (Hmem : In (toString (length os + 1)) (map o_id os)).
  { rewrite <- Hid. apply in_map. by apply list_elem_of_In. }
  rewrite Hseq in Hmem. apply in_map_iff in Hmem as (k & Hk & Hrange).
  apply toString_inj in Hk. apply in_seq in Hrange. lia.
Qed.

Lemma handle_order_sequential (parseFloat_text : value → float)
    (r : request) (s : Store) :
  order_sequential (orders s) →
  order_sequential (orders (handle parseFloat_text r s)).
Proof.
  intros Hseq. destruct (on_orders r) eqn:Hr;
    [|by rewrite handle_orders_of_juice_request].
  destruct r; simpl in *; try done.
  - by apply order_sequential_push.
  - unfold Mutation.updateOrderStatus.
    destruct (List.find _ (orders s)) as [o|] eqn:Hfind; [|done].
    destruct (find_Some_findIndex _ _ _ Hfind) as (i & Hi & Hlook).
    rewrite Hi. simpl. unfold order_sequential.
    rewrite length_insert.
    by rewrite (map_insert_same o_id _ i (Mutation.set_status _ o) o
                  Hlook eq_refl).
  - unfold Rest.post_api_orders. destruct (_ || _ || _); simpl; [done|].
    by apply order_sequential_push.
Qed.

(** In every state that requests reach from the seed data the ids of the
    orders are "1", "2", ... in order, so distinct (no request removes an
    order); the id of a new order is then free, and the order is the one
    read back under it. *)
Theorem order_ids_stay_distinct (parseFloat_text : value → float)
    (rs : list request) (now : string) (input : OrderInput) :
  order_sequential (orders (run parseFloat_text rs seed))
  ∧ NoDup (map o_id (orders (run parseFloat_text rs seed)))
  ∧ ¬ order_present
        (o_id (Mutation.createOrder now input
                 (run parseFloat_text rs seed)).1)
        (orders (run parseFloat_text rs seed))
  ∧ Query.order
      (o_id (Mutation.createOrder now input (run parseFloat_text rs seed)).1)
      (Mutation.createOrder now input (run parseFloat_text rs seed)).2
    = Some (Mutation.createOrder now input (run parseFloat_text rs seed)).1.
Proof.
  assert (Hseq : order_sequential (orders (run parseFloat_text rs seed))).
  { apply (run_invariant parseFloat_text
             (fun s => order_sequential (orders s)) (fun _ => true)).
    - intros r s _. apply handle_order_sequential.
    - by induction rs.
    - reflexivity. }
  split; [exact Hseq|]. split; [|split].
  - rewrite Hseq. apply NoDup_map_toString.
  - by apply order_sequential_next_id_free.
  - pose proof (order_sequential_next_id_free _ Hseq) as Hfree.
    apply order_found_present in Hfree.
    unfold Query.order. simpl.
    rewrite find_push. simpl in Hfree. rewrite Hfree. simpl.
    by rewrite String.eqb_refl.
Qed.

(** *** Juice ids while nothing is deleted *)

Lemma handle_sequential (parseFloat_text : value → float) (r : request)
    (s : Store) :
  deletes r = false → sequential (juices s) →
  sequential (juices (handle parseFloat_text r s)).
Proof.
  intros Hr Hseq. destruct (on_orders r) eqn:Ho;
    [by rewrite handle_juices_of_order_request|].
  destruct r; simpl in *; try done.
  - by apply sequential_createJuice.
  - unfold Mutation.updateJuice.
    destruct (findIndex _ (juices s)) as [i|] eqn:Hi; [|done].
    pose proof (findIndex_Some _ _ _ Hi) as (j & Hj & _).
    rewrite Hj. simpl. unfold sequential. rewrite length_insert.
    by rewrite (map_insert_same j_id _ i (Mutation.merge j _) j Hj
                  eq_refl).
  - by apply sequential_post_api_juices.
  - unfold Rest.put_api_juices_id.
    destruct (List.find _ (juices s)) as [j|] eqn:Hfind; [|done].
    destruct (find_Some_findIndex _ _ _ Hfind) as (i & Hi & Hlook).
    rewrite Hi. simpl. unfold sequential. rewrite length_insert.
    by rewrite (map_insert_same j_id _ i
                  (Rest.assign parseFloat_text j _) j Hlook eq_refl).
Qed.

(** As long as no request deletes a juice, the ids of the juices reached
    from the seed data are "1", "2", ... in order, so distinct, and the id
    that the next creation takes is under no stored juice.  After a
    delete the length no longer tells the ids in use. *)
Theorem juice_ids_distinct_without_delete (parseFloat_text : value → float)
    (rs : list request) :
  forallb (fun r => negb (deletes r)) rs = true →
  sequential (juices (run parseFloat_text rs seed))
  ∧ NoDup (map j_id (juices (run parseFloat_text rs seed)))
  ∧ ¬ present
        (toString (length (juices (run parseFloat_text rs seed)) + 1))
        (juices (run parseFloat_text rs seed)).
Proof.
  intros Hrs.
  assert (Hseq : sequential (juices (run parseFloat_text rs seed))).
  { apply (run_invariant parseFloat_text (fun s => sequential (juices s))
             (fun r => negb (deletes r))); [|done|apply sequential_seed].
    intros r s Hr. apply handle_sequential. by apply negb_true_iff. }
  split; [exact Hseq|]. split.
  - rewrite Hseq. apply NoDup_map_toString.
  - by apply sequential_next_id_free.
Qed.

Lemma juice_ids_distinct_without_delete_witness :
  NoDup
    (map j_id
       (juices
          (run (fun _ => nan)
             [GqlCreateJuice
                (mkJuiceInput "Mango Tango" Absent 6.49 Absent Absent Absent);
              PutJuice "6"
                (mkJuiceBody VUndefined (VStr "Fresh mango") VUndefined
                   VUndefined VUndefined VUndefined)]
             seed))).
Proof.
  destruct (juice_ids_distinct_without_delete (fun _ => nan)
              [GqlCreateJuice
                 (mkJuiceInput "Mango Tango" Absent 6.49 Absent Absent Absent);
               PutJuice "6"
                 (mkJuiceBody VUndefined (VStr "Fresh mango") VUndefined
                    VUndefined VUndefined VUndefined)] eq_refl)
    as (_ & Hdistinct & _).
  exact Hdistinct.
Defined.

Lemma orders_are_never_lost_witness :
  ∃ o',
    orders
      (run (fun _ => nan)
         [GqlUpdateOrderStatus "2" "shipped"; GqlDeleteJuice "3";
          GqlCreateOrder "2024-02-01T10:00:00.000Z"
            (mkOrderInput "Test" ["3"])]
         seed) !! 1 = Some o'
    ∧ frozen o'
      = ("2", VStr "Sunny", [VStr "3"], 6.99%float,
         DateObj "2024-01-16T00:00:00.000Z").
Proof.
  destruct (orders_are_never_lost (fun _ => nan)
              [GqlUpdateOrderStatus "2" "shipped"; GqlDeleteJuice "3";
               GqlCreateOrder "2024-02-01T10:00:00.000Z"
                 (mkOrderInput "Test" ["3"])]
              seed) as (_ & _ & Hkept).
  exact (Hkept 1 _ eq_refl).
Defined.

(** ** Requests that fail *)


